(** * ecomm: the protocol configuration header [ecomm/protocol/config.hpp]

    The header is a piece of preprocessor text: an include guard, three
    object-like macros and two [static_assert] declarations.  It is embedded
    here as a state transformer on a translation unit, the state being the
    macro table of the preprocessor together with the diagnostics the
    compiler has issued so far.

    Modelling conventions.
    - A macro body is either empty ([#define NAME]) or one integer constant
      ([#define NAME 42], [-DNAME=42]).  Integer constants are mathematical
      integers.  The two assertions of the header compare a constant with
      [0], [4] and [256]; for a constant that fits [long long]
      ([representable]) these comparisons are the ones on [Z].  A constant
      beyond that is ill-formed in ISO C++ and compilers differ on it (they
      warn and truncate, or go unsigned), so every statement that infers an
      assertion failure from a value carries [representable] as a
      hypothesis.
    - A [#define] of a name that already has a different body is ill-formed
      (ISO C++ [cpp.replace]); GCC, Clang and MSVC report it as a warning and
      carry on with the new body, and so does the model.
    - A failed [static_assert] is an error; it is reported and compilation
      carries on, so that several diagnostics may be collected.  The order
      of the collected diagnostics is the textual order of the directives;
      nothing is claimed about the order in which a compiler prints them.
    - Two outcomes are told apart: [object_file], produced unless an error
      was issued (the compilers' default), and [artifact], produced only
      when no diagnostic at all was issued (warnings included). *)

From Stdlib Require Import ZArith String List Lia.
From stdpp Require Import gmap strings list fin_maps.

Open Scope Z_scope.

(** ** The preprocessor and the compile-time assertions *)

Module Cpp.

(** The replacement list of an object-like macro. *)
Inductive replacement : Type :=
| Empty
| IntLit (value : Z).

#[global] Instance replacement_eq_dec : EqDecision replacement.
Proof. solve_decision. Defined.

Inductive diagnostic : Type :=
| StaticAssertFailed (message : string)
| NotConstantExpression (message : string)
| MacroRedefined (name : string).

#[global] Instance diagnostic_eq_dec : EqDecision diagnostic.
Proof. solve_decision. Defined.

(** A translation unit while it is being compiled. *)
Record TU : Type := mkTU {
  macros : gmap string replacement;
  diagnostics : list diagnostic
}.

(** Nothing defined, nothing reported: the start of a compilation. *)
Definition fresh : TU := mkTU ∅ [].

Definition report (d : diagnostic) (tu : TU) : TU :=
  mkTU (macros tu) (diagnostics tu ++ [d]).

(** [#define name body] *)
Definition define (name : string) (body : replacement) (tu : TU) : TU :=
  match macros tu !! name with
  | None => mkTU (<[name := body]> (macros tu)) (diagnostics tu)
  | Some old =>
      if decide (old = body) then tu
      else report (MacroRedefined name)
             (mkTU (<[name := body]> (macros tu)) (diagnostics tu))
  end.

(** [#ifndef name ... #endif] *)
Definition ifndef (name : string) (body : TU → TU) (tu : TU) : TU :=
  match macros tu !! name with
  | None => body tu
  | Some _ => tu
  end.

(** The value an identifier has inside a constant expression, after macro
    replacement.  A name that is not a macro, or a macro with an empty
    body, leaves no integer constant behind. *)
Definition expand (name : string) (tu : TU) : option Z :=
  match macros tu !! name with
  | Some (IntLit v) => Some v
  | Some Empty | None => None
  end.

(** [static_assert(cond, message);] *)
Definition static_assert (cond : TU → option bool) (message : string)
    (tu : TU) : TU :=
  match cond tu with
  | Some true => tu
  | Some false => report (StaticAssertFailed message) tu
  | None => report (NotConstantExpression message) tu
  end.

(** The artifact of a compilation: the constants it exports, and only if
    no diagnostic was issued. *)
Definition artifact (tu : TU) : option (gmap string replacement) :=
  match diagnostics tu with
  | [] => Some (macros tu)
  | _ :: _ => None
  end.

(** How compilers rate a diagnostic by default: a failed or malformed
    assertion is an error, the redefinition of a macro a warning. *)
Definition is_error (d : diagnostic) : bool :=
  match d with
  | StaticAssertFailed _ | NotConstantExpression _ => true
  | MacroRedefined _ => false
  end.

(** The object file of a compilation, with the constants compiled into it:
    produced unless an error was issued; warnings do not stop it. *)
Definition object_file (tu : TU) : option (gmap string replacement) :=
  if forallb (λ d, negb (is_error d)) (diagnostics tu)
  then Some (macros tu) else None.

End Cpp.

Import Cpp.

(** ** The header *)

Definition guard : string := "ECOMM_PROTOCOL_CONFIG_HPP_".
Definition protocol_version : string := "ECOMM_PROTOCOL_VERSION".
Definition board_id : string := "ECOMM_BOARD_ID".
Definition device_n : string := "ECOMM_DEVICE_N".

Definition protocol_version_message : string :=
  "ECOMM_PROTOCOL_VERSION must be in range [0, 3]".
Definition device_n_message : string :=
  "ECOMM_DEVICE_N must be in range [1, 255]".

(** [ECOMM_PROTOCOL_VERSION >= 0 and ECOMM_PROTOCOL_VERSION < 4]: the macro
    is replaced at both of its occurrences. *)
Definition protocol_version_cond (tu : TU) : option bool :=
  a ← expand protocol_version tu;
  b ← expand protocol_version tu;
  Some ((a >=? 0) && (b <? 4)).

(** [ECOMM_DEVICE_N > 0 and ECOMM_DEVICE_N < 256] *)
Definition device_n_cond (tu : TU) : option bool :=
  a ← expand device_n tu;
  b ← expand device_n tu;
  Some ((a >? 0) && (b <? 256)).

(** An integer constant, or the negation of one, that fits [long long] on
    every C++ implementation (64 bits at least). *)
Definition representable (v : Z) : Prop :=
  -9223372036854775808 < v < 9223372036854775808.

(** The text of the header between its [#ifndef] and [#endif] guard lines,
    directive after directive.  [pv] stands for the integer constant of
    line 33. *)
Definition guarded_text (pv : Z) (tu : TU) : TU :=
  let tu := define guard Empty tu in
  let tu := define protocol_version (IntLit pv) tu in
  let tu := static_assert protocol_version_cond protocol_version_message tu in
  let tu := ifndef board_id (define board_id (IntLit 0)) tu in
  let tu := ifndef device_n (define device_n (IntLit 2)) tu in
  static_assert device_n_cond device_n_message tu.

Definition config_hpp_at (pv : Z) : TU → TU := ifndef guard (guarded_text pv).

(** The header as it is in the repository: line 33 reads
    [#define ECOMM_PROTOCOL_VERSION 0]. *)
Definition config_hpp : TU → TU := config_hpp_at 0.

(** ** What each directive reports *)

(** What a [#define] adds to the diagnostics. *)
Definition redefinition (name : string) (body : replacement) (tu : TU)
    : list diagnostic :=
  match macros tu !! name with
  | Some old => if decide (old = body) then [] else [MacroRedefined name]
  | None => []
  end.

(** What a [static_assert] adds to the diagnostics. *)
Definition verdict (cond : TU → option bool) (message : string) (tu : TU)
    : list diagnostic :=
  match cond tu with
  | Some true => []
  | Some false => [StaticAssertFailed message]
  | None => [NotConstantExpression message]
  end.

(** The diagnostics of the two assertions, as functions of the body the
    macro has when the assertion is reached. *)
Definition protocol_version_verdict (r : replacement) : list diagnostic :=
  match r with
  | IntLit v =>
      if (v >=? 0) && (v <? 4) then []
      else [StaticAssertFailed protocol_version_message]
  | Empty => [NotConstantExpression protocol_version_message]
  end.

Definition device_n_verdict (r : replacement) : list diagnostic :=
  match r with
  | IntLit v =>
      if (v >? 0) && (v <? 256) then []
      else [StaticAssertFailed device_n_message]
  | Empty => [NotConstantExpression device_n_message]
  end.

(** ** Translation units that include the header *)

(** The three parameters of the configuration surface. *)
Inductive parameter : Type := ProtocolVersion | BoardId | DeviceCount.

Definition symbol (p : parameter) : string :=
  match p with
  | ProtocolVersion => protocol_version
  | BoardId => board_id
  | DeviceCount => device_n
  end.

(** The constant on the parameter's [#define] line. *)
Definition builtin_default (p : parameter) : Z :=
  match p with
  | ProtocolVersion => 0
  | BoardId => 0
  | DeviceCount => 2
  end.


(** The text of a translation unit, as far as the header is concerned:
    macro definitions of the consuming build and inclusions of the header. *)
Inductive item : Type :=
| Define (name : string) (body : replacement)
| IncludeConfig.

Definition exec (i : item) : TU → TU :=
  match i with
  | Define name body => define name body
  | IncludeConfig => config_hpp
  end.

Fixpoint run (items : list item) (tu : TU) : TU :=
  match items with
  | [] => tu
  | i :: rest => run rest (exec i tu)
  end.

Definition build (items : list item) : option (gmap string replacement) :=
  artifact (run items fresh).

Definition compile (items : list item) : option (gmap string replacement) :=
  object_file (run items fresh).

(** A translation unit that reaches the header for the first time, with no
    diagnostic so far, and in which the protocol-version symbol, if it has
    been defined at all, has the body the header gives it. *)
Record admissible (tu : TU) : Prop := {
  admissible_clean : diagnostics tu = [];
  admissible_first : macros tu !! guard = None;
  admissible_version :
    ∀ r, macros tu !! protocol_version = Some r → r = IntLit 0
}.

(** [needle] occurs in [text]. *)
Definition mentions (needle text : string) : bool :=
  match String.index 0 needle text with
  | Some _ => true
  | None => false
  end.


(** ** Observations on a whole translation unit *)

(** Whether the item is a definition of the symbol [n]. *)
Definition defines (n : string) (i : item) : bool :=
  match i with
  | Define name _ => String.eqb name n
  | IncludeConfig => false
  end.

Definition is_include (i : item) : bool :=
  match i with
  | Define _ _ => false
  | IncludeConfig => true
  end.

(** A diagnostic of the assertion on the device count: the assertion failed,
    or its condition was no constant expression. *)
Definition device_n_report (d : diagnostic) : bool :=
  match d with
  | StaticAssertFailed m | NotConstantExpression m =>
      String.eqb m device_n_message
  | MacroRedefined _ => false
  end.

Definition device_n_reports (tu : TU) : nat :=
  length (List.filter device_n_report (diagnostics tu)).

(** The symbols the header defines. *)
Definition header_symbols : gset string :=
  {[guard; protocol_version; board_id; device_n]}.

(** The constants that the two assertions of the header vouch for. *)
Definition validated (tu : TU) : Prop :=
  macros tu !! protocol_version = Some (IntLit 0) ∧
  ∃ v, macros tu !! device_n = Some (IntLit v) ∧ 1 ≤ v ≤ 255.

(** * Properties *)

Example config_hpp_fresh :
  config_hpp fresh =
  mkTU (<[device_n := IntLit 2]> (<[board_id := IntLit 0]>
         (<[protocol_version := IntLit 0]> (<[guard := Empty]> ∅)))) [].
Proof. vm_compute. reflexivity. Qed.

(** ** The primitives, one equation each *)

Section Primitives.

Implicit Types (tu : TU) (name n : string) (body : replacement).

Lemma lookup_define_eq name body tu :
  macros (define name body tu) !! name = Some body.
Proof.
  unfold define. destruct (macros tu !! name) as [old|] eqn:E; simpl.
  - destruct (decide (old = body)) as [->|]; simpl; [done|].
    apply lookup_insert_eq.
  - apply lookup_insert_eq.
Qed.

Lemma lookup_define_ne name body tu n :
  name ≠ n → macros (define name body tu) !! n = macros tu !! n.
Proof.
  intros Hne. unfold define.
  destruct (macros tu !! name) as [old|]; simpl.
  - destruct (decide (old = body)); simpl; [done|].
    by apply lookup_insert_ne.
  - by apply lookup_insert_ne.
Qed.

Lemma diagnostics_define name body tu :
  diagnostics (define name body tu)
  = diagnostics tu ++ redefinition name body tu.
Proof.
  unfold define, redefinition.
  destruct (macros tu !! name) as [old|]; simpl.
  - destruct (decide (old = body)); simpl; [by rewrite app_nil_r|done].
  - by rewrite app_nil_r.
Qed.

Lemma macros_static_assert cond message tu :
  macros (static_assert cond message tu) = macros tu.
Proof. unfold static_assert. by destruct (cond tu) as [[]|]. Qed.

Lemma diagnostics_static_assert cond message tu :
  diagnostics (static_assert cond message tu)
  = diagnostics tu ++ verdict cond message tu.
Proof.
  unfold static_assert, verdict.
  destruct (cond tu) as [[]|]; simpl; [by rewrite app_nil_r|done..].
Qed.

Lemma ifndef_defined name (f : TU → TU) tu :
  is_Some (macros tu !! name) → ifndef name f tu = tu.
Proof. intros [r Hr]. unfold ifndef. by rewrite Hr. Qed.

Lemma ifndef_undefined name (f : TU → TU) tu :
  macros tu !! name = None → ifndef name f tu = f tu.
Proof. intros H. unfold ifndef. by rewrite H. Qed.

(** [#ifndef name] / [#define name body] / [#endif]: the override if there
    is one, the default otherwise, and never a diagnostic. *)
Lemma lookup_default_eq name body tu :
  macros (ifndef name (define name body) tu) !! name
  = Some (default body (macros tu !! name)).
Proof.
  unfold ifndef. destruct (macros tu !! name) as [r|] eqn:E; simpl; [done|].
  apply lookup_define_eq.
Qed.

Lemma lookup_default_ne name body tu n :
  name ≠ n →
  macros (ifndef name (define name body) tu) !! n = macros tu !! n.
Proof.
  intros Hne. unfold ifndef. destruct (macros tu !! name); [done|].
  by apply lookup_define_ne.
Qed.

Lemma diagnostics_default name body tu :
  diagnostics (ifndef name (define name body) tu) = diagnostics tu.
Proof.
  unfold ifndef. destruct (macros tu !! name) eqn:E; [done|].
  rewrite diagnostics_define. unfold redefinition. rewrite E.
  by rewrite app_nil_r.
Qed.

End Primitives.

(** ** What the header computes *)

Lemma names_distinct :
  guard ≠ protocol_version ∧ guard ≠ board_id ∧ guard ≠ device_n ∧
  protocol_version ≠ board_id ∧ protocol_version ≠ device_n ∧
  board_id ≠ device_n.
Proof. repeat split; discriminate. Qed.

Section Header.

Variable pv : Z.
Implicit Types (tu : TU) (n : string) (r : replacement) (v : Z).

Lemma verdict_protocol_version tu r :
  macros tu !! protocol_version = Some r →
  verdict protocol_version_cond protocol_version_message tu
  = protocol_version_verdict r.
Proof.
  intros H. unfold verdict, protocol_version_cond, expand. rewrite H.
  destruct r as [|v]; simpl; [done|]. by destruct ((v >=? 0) && (v <? 4)).
Qed.

Lemma verdict_device_n tu r :
  macros tu !! device_n = Some r →
  verdict device_n_cond device_n_message tu = device_n_verdict r.
Proof.
  intros H. unfold verdict, device_n_cond, expand. rewrite H.
  destruct r as [|v]; simpl; [done|]. by destruct ((v >? 0) && (v <? 256)).
Qed.

Lemma lookup_guarded_guard tu :
  macros (guarded_text pv tu) !! guard = Some Empty.
Proof.
  destruct names_distinct as (H1 & H2 & H3 & _). unfold guarded_text.
  rewrite macros_static_assert, !lookup_default_ne, macros_static_assert by done.
  rewrite lookup_define_ne by done. apply lookup_define_eq.
Qed.

Lemma lookup_guarded_protocol_version tu :
  macros (guarded_text pv tu) !! protocol_version = Some (IntLit pv).
Proof.
  destruct names_distinct as (_ & _ & _ & H1 & H2 & _). unfold guarded_text.
  rewrite macros_static_assert, !lookup_default_ne, macros_static_assert by done.
  apply lookup_define_eq.
Qed.

Lemma lookup_guarded_board_id tu :
  macros (guarded_text pv tu) !! board_id
  = Some (default (IntLit 0) (macros tu !! board_id)).
Proof.
  destruct names_distinct as (_ & H1 & _ & H2 & _ & H3). unfold guarded_text.
  rewrite macros_static_assert, lookup_default_ne by done.
  rewrite lookup_default_eq, macros_static_assert.
  by rewrite !lookup_define_ne by done.
Qed.

Lemma lookup_guarded_device_n tu :
  macros (guarded_text pv tu) !! device_n
  = Some (default (IntLit 2) (macros tu !! device_n)).
Proof.
  destruct names_distinct as (_ & _ & H1 & _ & H2 & H3). unfold guarded_text.
  rewrite macros_static_assert, lookup_default_eq.
  rewrite lookup_default_ne, macros_static_assert by done.
  by rewrite !lookup_define_ne by done.
Qed.

Lemma lookup_guarded_other tu n :
  n ≠ guard → n ≠ protocol_version → n ≠ board_id → n ≠ device_n →
  macros (guarded_text pv tu) !! n = macros tu !! n.
Proof.
  intros. unfold guarded_text.
  rewrite macros_static_assert, !lookup_default_ne, macros_static_assert by done.
  by rewrite !lookup_define_ne by done.
Qed.

Lemma diagnostics_guarded tu :
  diagnostics (guarded_text pv tu)
  = diagnostics tu
    ++ redefinition guard Empty tu
    ++ redefinition protocol_version (IntLit pv) tu
    ++ protocol_version_verdict (IntLit pv)
    ++ device_n_verdict (default (IntLit 2) (macros tu !! device_n)).
Proof.
  destruct names_distinct as (H1 & H2 & H3 & H4 & H5 & H6).
  unfold guarded_text.
  rewrite diagnostics_static_assert.
  rewrite (verdict_device_n _ (default (IntLit 2) (macros tu !! device_n))).
  2:{ rewrite lookup_default_eq.
      rewrite lookup_default_ne, macros_static_assert by done.
      by rewrite !lookup_define_ne by done. }
  rewrite !diagnostics_default, diagnostics_static_assert.
  rewrite (verdict_protocol_version _ (IntLit pv)) by apply lookup_define_eq.
  rewrite !diagnostics_define.
  unfold redefinition at 2. rewrite lookup_define_ne by done.
  fold (redefinition protocol_version (IntLit pv) tu).
  by rewrite <- !app_assoc.
Qed.

End Header.

Lemma config_hpp_at_first pv (tu : TU) :
  macros tu !! guard = None → config_hpp_at pv tu = guarded_text pv tu.
Proof. intros H. by apply ifndef_undefined. Qed.

Lemma config_hpp_at_again pv (tu : TU) :
  is_Some (macros tu !! guard) → config_hpp_at pv tu = tu.
Proof. intros H. by apply ifndef_defined. Qed.

Lemma guard_defined_after pv (tu : TU) :
  is_Some (macros (config_hpp_at pv tu) !! guard).
Proof.
  destruct (macros tu !! guard) as [r|] eqn:E.
  - rewrite config_hpp_at_again by eauto. eauto.
  - rewrite config_hpp_at_first by done. rewrite lookup_guarded_guard. eauto.
Qed.

Lemma diagnostics_config_hpp_at pv (tu : TU) :
  macros tu !! guard = None →
  diagnostics (config_hpp_at pv tu)
  = diagnostics tu
    ++ redefinition protocol_version (IntLit pv) tu
    ++ protocol_version_verdict (IntLit pv)
    ++ device_n_verdict (default (IntLit 2) (macros tu !! device_n)).
Proof.
  intros H. rewrite config_hpp_at_first, diagnostics_guarded by done.
  unfold redefinition at 1. by rewrite H.
Qed.

(** The two assertions accept exactly the closed intervals that their
    messages name. *)
Lemma protocol_version_verdict_nil (v : Z) :
  protocol_version_verdict (IntLit v) = [] ↔ 0 ≤ v ≤ 3.
Proof.
  simpl. destruct ((v >=? 0) && (v <? 4)) eqn:E.
  - split; [intros _; lia | done].
  - split; [done | intros; lia].
Qed.

Lemma protocol_version_verdict_failed (v : Z) :
  ¬ (0 ≤ v ≤ 3) →
  protocol_version_verdict (IntLit v)
  = [StaticAssertFailed protocol_version_message].
Proof.
  intros H. simpl. destruct ((v >=? 0) && (v <? 4)) eqn:E; [lia | done].
Qed.

Lemma device_n_verdict_nil (v : Z) :
  device_n_verdict (IntLit v) = [] ↔ 1 ≤ v ≤ 255.
Proof.
  simpl. destruct ((v >? 0) && (v <? 256)) eqn:E.
  - split; [intros _; lia | done].
  - split; [done | intros; lia].
Qed.

Lemma device_n_verdict_failed (v : Z) :
  ¬ (1 ≤ v ≤ 255) →
  device_n_verdict (IntLit v) = [StaticAssertFailed device_n_message].
Proof.
  intros H. simpl. destruct ((v >? 0) && (v <? 256)) eqn:E; [lia | done].
Qed.

Lemma redefinition_nil (name : string) (body : replacement) (tu : TU) :
  redefinition name body tu = []
  ↔ ∀ r, macros tu !! name = Some r → r = body.
Proof.
  unfold redefinition. destruct (macros tu !! name) as [old|].
  - destruct (decide (old = body)) as [->|Hne].
    + split; [intros _ r [= <-]; done | done].
    + split; [done | intros H; destruct Hne; by apply H].
  - split; [intros _ r [=] | done].
Qed.

Lemma artifact_None (tu : TU) : diagnostics tu ≠ [] → artifact tu = None.
Proof. unfold artifact. by destruct (diagnostics tu). Qed.

Lemma artifact_Some (tu : TU) m :
  artifact tu = Some m ↔ diagnostics tu = [] ∧ m = macros tu.
Proof.
  unfold artifact. destruct (diagnostics tu).
  - split; [intros [= <-]; done | intros [_ ->]; done].
  - split; [done | intros [[=] _]].
Qed.

Lemma admissible_diagnostics (tu : TU) :
  admissible tu →
  diagnostics (config_hpp tu)
  = device_n_verdict (default (IntLit 2) (macros tu !! device_n)).
Proof.
  intros [Hc Hg Hv]. unfold config_hpp.
  rewrite diagnostics_config_hpp_at by done. rewrite Hc.
  by rewrite (proj2 (redefinition_nil _ _ _) Hv).
Qed.

Lemma expand_lookup (name : string) (tu : TU) (v : Z) :
  expand name tu = Some v ↔ macros tu !! name = Some (IntLit v).
Proof.
  unfold expand. destruct (macros tu !! name) as [[|w]|].
  - split; done.
  - split; intros [= ->]; done.
  - split; done.
Qed.

Lemma TU_eq (a b : TU) :
  macros a = macros b → diagnostics a = diagnostics b → a = b.
Proof. destruct a, b; simpl; intros -> ->; done. Qed.

Lemma lookup_config_hpp_guard (tu : TU) :
  macros tu !! guard = None → macros (config_hpp tu) !! guard = Some Empty.
Proof.
  intros Hg. unfold config_hpp. rewrite config_hpp_at_first by done.
  apply lookup_guarded_guard.
Qed.

Lemma lookup_config_hpp_protocol_version (tu : TU) :
  macros tu !! guard = None →
  macros (config_hpp tu) !! protocol_version = Some (IntLit 0).
Proof.
  intros Hg. unfold config_hpp. rewrite config_hpp_at_first by done.
  apply lookup_guarded_protocol_version.
Qed.

Lemma lookup_config_hpp_board_id (tu : TU) :
  macros tu !! guard = None →
  macros (config_hpp tu) !! board_id
  = Some (default (IntLit 0) (macros tu !! board_id)).
Proof.
  intros Hg. unfold config_hpp. rewrite config_hpp_at_first by done.
  apply lookup_guarded_board_id.
Qed.

Lemma lookup_config_hpp_device_n (tu : TU) :
  macros tu !! guard = None →
  macros (config_hpp tu) !! device_n
  = Some (default (IntLit 2) (macros tu !! device_n)).
Proof.
  intros Hg. unfold config_hpp. rewrite config_hpp_at_first by done.
  apply lookup_guarded_device_n.
Qed.

Lemma lookup_config_hpp_other (tu : TU) (n : string) :
  macros tu !! guard = None →
  n ≠ guard → n ≠ protocol_version → n ≠ board_id → n ≠ device_n →
  macros (config_hpp tu) !! n = macros tu !! n.
Proof.
  intros Hg ????. unfold config_hpp. rewrite config_hpp_at_first by done.
  by apply lookup_guarded_other.
Qed.

Lemma elem_of_redefinition (d : diagnostic) (n : string) (b : replacement)
    (tu : TU) :
  d ∈ redefinition n b tu → d = MacroRedefined n.
Proof.
  unfold redefinition. destruct (macros tu !! n) as [old|].
  - destruct (decide (old = b)).
    + intros H. by apply elem_of_nil in H.
    + intros H. by apply list_elem_of_singleton in H.
  - intros H. by apply elem_of_nil in H.
Qed.

Lemma elem_of_device_n_verdict (d : diagnostic) (r : replacement) :
  d ∈ device_n_verdict r →
  d = StaticAssertFailed device_n_message ∨
  d = NotConstantExpression device_n_message.
Proof.
  destruct r as [|v]; simpl.
  - intros H. apply list_elem_of_singleton in H. auto.
  - destruct ((v >? 0) && (v <? 256)); intros H.
    + by apply elem_of_nil in H.
    + apply list_elem_of_singleton in H. auto.
Qed.

Lemma filter_redefinition (n : string) (b : replacement) (tu : TU) :
  List.filter device_n_report (redefinition n b tu) = [].
Proof.
  unfold redefinition. destruct (macros tu !! n) as [old|]; [|done].
  by destruct (decide (old = b)).
Qed.

Lemma filter_device_n_verdict (r : replacement) :
  (length (List.filter device_n_report (device_n_verdict r)) ≤ 1)%nat.
Proof.
  destruct r as [|v]; unfold device_n_verdict.
  - vm_compute. lia.
  - destruct ((v >? 0) && (v <? 256)); [simpl; lia | vm_compute; lia].
Qed.

Lemma object_file_Some (tu : TU) (m : gmap string replacement) :
  object_file tu = Some m
  ↔ (∀ d, d ∈ diagnostics tu → is_error d = false) ∧ m = macros tu.
Proof.
  unfold object_file.
  destruct (forallb (λ d, negb (is_error d)) (diagnostics tu)) eqn:E.
  - rewrite forallb_forall in E. split.
    + intros [= <-]. split; [|done]. intros d Hd%list_elem_of_In.
      apply E in Hd. by apply negb_true_iff in Hd.
    + by intros [_ ->].
  - split; [done|]. intros [H _].
    assert (forallb (λ d, negb (is_error d)) (diagnostics tu) = true);
      [|congruence].
    apply forallb_forall. intros d Hd%list_elem_of_In.
    apply negb_true_iff. by apply H.
Qed.

Lemma object_file_None (tu : TU) (d : diagnostic) :
  d ∈ diagnostics tu → is_error d = true → object_file tu = None.
Proof.
  intros Hd He. destruct (object_file tu) as [m|] eqn:E; [|done].
  apply object_file_Some in E as [H _]. apply H in Hd. congruence.
Qed.


Lemma filter_device_n_verdict_IntLit (v : Z) :
  List.filter device_n_report (device_n_verdict (IntLit v))
  = if decide (1 ≤ v ≤ 255) then []
    else [StaticAssertFailed device_n_message].
Proof.
  unfold device_n_verdict. destruct (decide (1 ≤ v ≤ 255)) as [Hv|Hv].
  - destruct ((v >? 0) && (v <? 256)) eqn:E; [done | lia].
  - destruct ((v >? 0) && (v <? 256)) eqn:E; [lia|]. vm_compute. reflexivity.
Qed.

(** ** The claims *)

(** C1.  An override [v] of the device count with [1 <= v <= 255], in place
    before the header is processed, is accepted: the header reports nothing,
    an artifact is produced, and the device count it exports is [v] itself,
    neither clamped nor coerced. *)
Theorem device_count_override_accepted (tu : TU) (v : Z) :
  admissible tu →
  macros tu !! device_n = Some (IntLit v) →
  1 ≤ v ≤ 255 →
  diagnostics (config_hpp tu) = [] ∧
  expand device_n (config_hpp tu) = Some v ∧
  ∃ m, artifact (config_hpp tu) = Some m ∧ m !! device_n = Some (IntLit v).
Proof.
  intros Hadm Hdev Hv.
  assert (Hd : diagnostics (config_hpp tu) = []).
  { rewrite admissible_diagnostics by done. rewrite Hdev. simpl default.
    by apply device_n_verdict_nil. }
  assert (Hl : macros (config_hpp tu) !! device_n = Some (IntLit v)).
  { unfold config_hpp. rewrite config_hpp_at_first by apply Hadm.
    by rewrite lookup_guarded_device_n, Hdev. }
  split; [done|]. split; [by apply expand_lookup|].
  exists (macros (config_hpp tu)). split; [|done].
  by apply artifact_Some.
Qed.

Lemma device_count_override_accepted_witness :
  diagnostics (config_hpp (define device_n (IntLit 7) fresh)) = [] ∧
  expand device_n (config_hpp (define device_n (IntLit 7) fresh)) = Some 7 ∧
  ∃ m, artifact (config_hpp (define device_n (IntLit 7) fresh)) = Some m
       ∧ m !! device_n = Some (IntLit 7).
Proof.
  apply (device_count_override_accepted (define device_n (IntLit 7) fresh) 7).
  - split; [reflexivity | vm_compute; reflexivity |].
    intros r H. vm_compute in H. discriminate.
  - vm_compute. reflexivity.
  - lia.
Defined.

(** C2.  An override [v] of the device count outside [1, 255], in place
    before the header is processed, fails the build: the assertion of the
    header is reported as an error, its message names the parameter and the
    range, and neither an object file nor an artifact is produced.  [v] is
    any integer constant that fits [long long]. *)
Theorem device_count_override_rejected (tu : TU) (v : Z) :
  macros tu !! guard = None →
  macros tu !! device_n = Some (IntLit v) →
  representable v →
  ¬ (1 ≤ v ≤ 255) →
  StaticAssertFailed device_n_message ∈ diagnostics (config_hpp tu) ∧
  is_error (StaticAssertFailed device_n_message) = true ∧
  mentions device_n device_n_message = true ∧
  mentions "[1, 255]" device_n_message = true ∧
  object_file (config_hpp tu) = None ∧
  artifact (config_hpp tu) = None.
Proof.
  intros Hg Hdev _ Hv.
  assert (Hin : StaticAssertFailed device_n_message
                ∈ diagnostics (config_hpp tu)).
  { unfold config_hpp. rewrite diagnostics_config_hpp_at by done.
    rewrite Hdev. simpl default. rewrite device_n_verdict_failed by done.
    rewrite !elem_of_app, list_elem_of_singleton. auto. }
  split; [done|]. split; [reflexivity|]. split; [reflexivity|].
  split; [reflexivity|]. split.
  - by apply (object_file_None _ _ Hin).
  - apply artifact_None. intros E. rewrite E in Hin.
    by apply elem_of_nil in Hin.
Qed.

Lemma device_count_override_rejected_witness :
  StaticAssertFailed device_n_message
    ∈ diagnostics (config_hpp (define device_n (IntLit 256) fresh)) ∧
  is_error (StaticAssertFailed device_n_message) = true ∧
  mentions device_n device_n_message = true ∧
  mentions "[1, 255]" device_n_message = true ∧
  object_file (config_hpp (define device_n (IntLit 256) fresh)) = None ∧
  artifact (config_hpp (define device_n (IntLit 256) fresh)) = None.
Proof.
  apply (device_count_override_rejected
           (define device_n (IntLit 256) fresh) 256).
  - vm_compute. reflexivity.
  - vm_compute. reflexivity.
  - unfold representable. lia.
  - lia.
Defined.

Example device_count_zero_rejected :
  compile [Define device_n (IntLit 0); IncludeConfig] = None.
Proof. vm_compute. reflexivity. Qed.

Example device_count_256_rejected :
  compile [Define device_n (IntLit 256); IncludeConfig] = None.
Proof. vm_compute. reflexivity. Qed.

Example device_count_negative_rejected :
  compile [Define device_n (IntLit (-1)); IncludeConfig] = None.
Proof. vm_compute. reflexivity. Qed.

Example device_count_255_accepted :
  (build [Define device_n (IntLit 255); IncludeConfig]
     ≫= λ m, m !! device_n) = Some (IntLit 255).
Proof. vm_compute. reflexivity. Qed.

(** C3.  Whatever integer constant [pv] (one that fits [long long]) line 33
    gives the protocol version: the header resolves the protocol version to
    [pv], whatever the consuming build may have defined beforehand; a build
    that yields an object file has its protocol version in [0, 3]; and a
    [pv] outside [0, 3] makes the assertion of line 34 fail, an error of
    the compilation, so that no object file, and hence no program that
    could fail when run, is produced. *)
Theorem protocol_version_range (pv : Z) (tu : TU) :
  representable pv →
  macros tu !! guard = None →
  macros (config_hpp_at pv tu) !! protocol_version = Some (IntLit pv) ∧
  (∀ m, object_file (config_hpp_at pv tu) = Some m →
        m !! protocol_version = Some (IntLit pv) ∧ 0 ≤ pv ≤ 3) ∧
  (¬ (0 ≤ pv ≤ 3) →
     StaticAssertFailed protocol_version_message
       ∈ diagnostics (config_hpp_at pv tu) ∧
     is_error (StaticAssertFailed protocol_version_message) = true ∧
     object_file (config_hpp_at pv tu) = None ∧
     artifact (config_hpp_at pv tu) = None).
Proof.
  intros _ Hg.
  assert (Hl : macros (config_hpp_at pv tu) !! protocol_version
               = Some (IntLit pv)).
  { rewrite config_hpp_at_first by done.
    apply lookup_guarded_protocol_version. }
  assert (Hfail : ¬ (0 ≤ pv ≤ 3) →
                  StaticAssertFailed protocol_version_message
                    ∈ diagnostics (config_hpp_at pv tu)).
  { intros Hpv. rewrite diagnostics_config_hpp_at by done.
    rewrite protocol_version_verdict_failed by done.
    rewrite !elem_of_app, list_elem_of_singleton. auto. }
  split; [done|]. split.
  - intros m [Herr ->]%object_file_Some. split; [done|].
    destruct (decide (0 ≤ pv ≤ 3)) as [|Hpv]; [done|].
    apply Hfail, Herr in Hpv. discriminate Hpv.
  - intros Hpv. specialize (Hfail Hpv).
    split; [done|]. split; [reflexivity|]. split.
    + by apply (object_file_None _ _ Hfail).
    + apply artifact_None. intros E. rewrite E in Hfail.
      by apply elem_of_nil in Hfail.
Qed.

Lemma protocol_version_range_witness :
  StaticAssertFailed protocol_version_message
    ∈ diagnostics (config_hpp_at 4 fresh) ∧
  is_error (StaticAssertFailed protocol_version_message) = true ∧
  object_file (config_hpp_at 4 fresh) = None ∧
  artifact (config_hpp_at 4 fresh) = None.
Proof.
  assert (Hr : representable 4) by (unfold representable; lia).
  apply (proj2 (proj2 (protocol_version_range 4 fresh Hr eq_refl))). lia.
Defined.

Example protocol_version_4_rejected :
  object_file (config_hpp_at 4 fresh) = None ∧
  object_file (config_hpp_at (-1) fresh) = None ∧
  (object_file (config_hpp_at 3 fresh) ≫= λ m, m !! protocol_version)
  = Some (IntLit 3).
Proof. vm_compute. done. Qed.

(** C4.  The board identifier: with no override the header resolves it to
    [0]; with an override [v], negative or not, it resolves it to [v]; and
    the diagnostics of the header are the same whether the board identifier
    has been overridden or not, and whatever the override is, so that no
    value of it is ever rejected. *)
Theorem board_id_unconstrained (tu : TU) :
  macros tu !! guard = None →
  (macros tu !! board_id = None → expand board_id (config_hpp tu) = Some 0) ∧
  (∀ v, macros tu !! board_id = Some (IntLit v) →
        expand board_id (config_hpp tu) = Some v) ∧
  (∀ v, macros tu !! board_id = None →
        diagnostics (config_hpp (define board_id (IntLit v) tu))
        = diagnostics (config_hpp tu)).
Proof.
  intros Hg. destruct names_distinct as (_ & Hgb & _ & Hpb & _ & Hbd).
  unfold config_hpp. split; [|split].
  - intros Hb. apply expand_lookup. rewrite config_hpp_at_first by done.
    by rewrite lookup_guarded_board_id, Hb.
  - intros v Hb. apply expand_lookup. rewrite config_hpp_at_first by done.
    by rewrite lookup_guarded_board_id, Hb.
  - intros v Hb.
    rewrite !diagnostics_config_hpp_at; [|done|].
    2:{ rewrite lookup_define_ne by done. done. }
    rewrite diagnostics_define. unfold redefinition. rewrite Hb.
    rewrite !lookup_define_ne by done. by rewrite app_nil_r.
Qed.

Lemma board_id_unconstrained_witness :
  expand board_id (config_hpp fresh) = Some 0 ∧
  expand board_id (config_hpp (define board_id (IntLit 42) fresh)) = Some 42 ∧
  expand board_id (config_hpp (define board_id (IntLit (-5)) fresh))
  = Some (-5) ∧
  diagnostics (config_hpp (define board_id (IntLit (-5)) fresh))
  = diagnostics (config_hpp fresh).
Proof.
  split; [|split; [|split]].
  - apply (proj1 (board_id_unconstrained fresh eq_refl)). reflexivity.
  - apply (proj1 (proj2 (board_id_unconstrained
                           (define board_id (IntLit 42) fresh) eq_refl))).
    vm_compute. reflexivity.
  - apply (proj1 (proj2 (board_id_unconstrained
                           (define board_id (IntLit (-5)) fresh) eq_refl))).
    vm_compute. reflexivity.
  - apply (proj2 (proj2 (board_id_unconstrained fresh eq_refl))).
    reflexivity.
Defined.

(** C5.  With no override of the device count the header resolves it to
    [2], and the build succeeds with that default. *)
Theorem device_count_default (tu : TU) :
  admissible tu →
  macros tu !! device_n = None →
  diagnostics (config_hpp tu) = [] ∧
  expand device_n (config_hpp tu) = Some 2 ∧
  ∃ m, artifact (config_hpp tu) = Some m ∧ m !! device_n = Some (IntLit 2).
Proof.
  intros Hadm Hdev.
  assert (Hd : diagnostics (config_hpp tu) = []).
  { rewrite admissible_diagnostics by done. by rewrite Hdev. }
  assert (Hl : macros (config_hpp tu) !! device_n = Some (IntLit 2)).
  { unfold config_hpp. rewrite config_hpp_at_first by apply Hadm.
    by rewrite lookup_guarded_device_n, Hdev. }
  split; [done|]. split; [by apply expand_lookup|].
  exists (macros (config_hpp tu)). split; [|done]. by apply artifact_Some.
Qed.

Lemma device_count_default_witness :
  diagnostics (config_hpp fresh) = [] ∧
  expand device_n (config_hpp fresh) = Some 2 ∧
  ∃ m, artifact (config_hpp fresh) = Some m ∧ m !! device_n = Some (IntLit 2).
Proof.
  apply (device_count_default fresh).
  - split; [reflexivity | reflexivity |].
    intros r H. vm_compute in H. discriminate.
  - reflexivity.
Defined.

(** C6.  The assertion on the device count is evaluated on the final
    device count, the override if the consuming build supplied one and the
    default [2] otherwise.  Let [v] be that value (an integer constant that
    fits [long long]) in a translation unit that reaches the header for the
    first time with no report of that assertion yet.  Then the header
    exports [v], and what it reports of the assertion is the verdict on
    [v]: nothing when [1 <= v <= 255], one failure otherwise.  So a default
    build is never reported, and an illegal override always is. *)
Theorem validation_follows_resolution (tu : TU) (v : Z) :
  macros tu !! guard = None →
  device_n_reports tu = 0%nat →
  representable v →
  default (IntLit 2) (macros tu !! device_n) = IntLit v →
  macros (config_hpp tu) !! device_n = Some (IntLit v) ∧
  List.filter device_n_report (diagnostics (config_hpp tu))
  = if decide (1 ≤ v ≤ 255) then []
    else [StaticAssertFailed device_n_message].
Proof.
  intros Hg Hnone _ Hres. split.
  - by rewrite lookup_config_hpp_device_n, Hres.
  - unfold config_hpp. rewrite diagnostics_config_hpp_at by done.
    rewrite !List.filter_app, filter_redefinition, Hres.
    rewrite filter_device_n_verdict_IntLit.
    unfold device_n_reports in Hnone. apply length_zero_iff_nil in Hnone.
    rewrite Hnone. reflexivity.
Qed.

Lemma validation_follows_resolution_witness :
  macros (config_hpp (define device_n (IntLit 300) fresh)) !! device_n
  = Some (IntLit 300) ∧
  List.filter device_n_report
    (diagnostics (config_hpp (define device_n (IntLit 300) fresh)))
  = if decide (1 ≤ 300 ≤ 255) then []
    else [StaticAssertFailed device_n_message].
Proof.
  apply (validation_follows_resolution
           (define device_n (IntLit 300) fresh) 300).
  - vm_compute. reflexivity.
  - vm_compute. reflexivity.
  - unfold representable. lia.
  - vm_compute. reflexivity.
Defined.

(** The override decides, not the default: [300] is rejected although the
    default would pass, and [5] passes. *)
Example validation_not_speculative :
  diagnostics (config_hpp (define device_n (IntLit 300) fresh))
  = [StaticAssertFailed device_n_message] ∧
  diagnostics (config_hpp (define device_n (IntLit 5) fresh)) = [] ∧
  diagnostics (config_hpp fresh) = [].
Proof. vm_compute. done. Qed.

Lemma exec_keeps_defined (i : item) (n : string) (tu : TU) :
  is_Some (macros tu !! n) → is_Some (macros (exec i tu) !! n).
Proof.
  intros Hn. destruct i as [name body|]; simpl.
  - destruct (decide (name = n)) as [->|Hne].
    + rewrite lookup_define_eq. eauto.
    + by rewrite lookup_define_ne.
  - unfold config_hpp. destruct (macros tu !! guard) as [r|] eqn:Hg.
    + rewrite config_hpp_at_again by eauto. done.
    + rewrite config_hpp_at_first by done.
      destruct (decide (n = guard)) as [->|?].
      { rewrite lookup_guarded_guard. eauto. }
      destruct (decide (n = protocol_version)) as [->|?].
      { rewrite lookup_guarded_protocol_version. eauto. }
      destruct (decide (n = board_id)) as [->|?].
      { rewrite lookup_guarded_board_id. eauto. }
      destruct (decide (n = device_n)) as [->|?].
      { rewrite lookup_guarded_device_n. eauto. }
      by rewrite lookup_guarded_other.
Qed.

Lemma run_keeps_defined (items : list item) (n : string) (tu : TU) :
  is_Some (macros tu !! n) → is_Some (macros (run items tu) !! n).
Proof.
  revert tu. induction items as [|i rest IH]; intros tu Hn; simpl; [done|].
  by apply IH, exec_keeps_defined.
Qed.

(** C7.  Once the header has been processed, processing it again, whether
    at once or after further definitions and inclusions, any number of
    times, changes nothing: the translation unit is the same, hence no
    further diagnostic of any kind and the same three constants. *)
Theorem reinclusion_is_noop (tu : TU) (between : list item) (k : nat) :
  Nat.iter k config_hpp (run between (config_hpp tu))
  = run between (config_hpp tu) ∧
  diagnostics (config_hpp (run between (config_hpp tu)))
  = diagnostics (run between (config_hpp tu)) ∧
  ∀ p, expand (symbol p) (config_hpp (run between (config_hpp tu)))
       = expand (symbol p) (run between (config_hpp tu)).
Proof.
  assert (Hagain : config_hpp (run between (config_hpp tu))
                   = run between (config_hpp tu)).
  { apply config_hpp_at_again, run_keeps_defined, guard_defined_after. }
  split; [|by rewrite Hagain].
  induction k as [|k IH]; simpl; [done|]. by rewrite IH.
Qed.

Example reinclusion_twice :
  run [IncludeConfig; IncludeConfig] fresh = run [IncludeConfig] fresh ∧
  run [Define device_n (IntLit 0); IncludeConfig; IncludeConfig] fresh
  = run [Define device_n (IntLit 0); IncludeConfig] fresh.
Proof. vm_compute. done. Qed.

(** The include guard is what does it: the guarded text on its own, run a
    second time, repeats the failed assertion. *)
Example unguarded_text_repeats :
  diagnostics (guarded_text 0 (define device_n (IntLit 0) fresh))
  = [StaticAssertFailed device_n_message] ∧
  diagnostics
    (guarded_text 0 (guarded_text 0 (define device_n (IntLit 0) fresh)))
  = [StaticAssertFailed device_n_message;
     StaticAssertFailed device_n_message].
Proof. vm_compute. done. Qed.






(** The late value is never validated: an illegal device count defined
    after the header draws the redefinition warning only, and an object
    file is produced with it. *)
Example late_definition_is_a_redefinition :
  diagnostics (run [IncludeConfig; Define device_n (IntLit 300)] fresh)
  = [MacroRedefined device_n] ∧
  (compile [IncludeConfig; Define device_n (IntLit 300); IncludeConfig]
     ≫= λ m, m !! device_n) = Some (IntLit 300).
Proof. vm_compute. done. Qed.

(** C9.  The assertion on the protocol version never fails in the header as
    it is: whatever the consuming build has defined, the header leaves the
    protocol version at [0], the condition of the assertion holds there,
    and a diagnostic of that assertion found after the header was there
    before it. *)
Theorem protocol_version_assert_unreachable (tu : TU) (d : diagnostic) :
  d = StaticAssertFailed protocol_version_message ∨
  d = NotConstantExpression protocol_version_message →
  (macros tu !! guard = None →
     expand protocol_version (config_hpp tu) = Some 0 ∧
     protocol_version_cond (config_hpp tu) = Some true) ∧
  (d ∈ diagnostics (config_hpp tu) → d ∈ diagnostics tu).
Proof.
  intros Hd. unfold config_hpp. split.
  - intros Hg.
    assert (E : expand protocol_version (config_hpp_at 0 tu) = Some 0).
    { apply expand_lookup. rewrite config_hpp_at_first by done.
      apply lookup_guarded_protocol_version. }
    split; [done|]. unfold protocol_version_cond. by rewrite E.
  - destruct (macros tu !! guard) as [r|] eqn:Hg.
    { rewrite config_hpp_at_again by eauto. done. }
    rewrite diagnostics_config_hpp_at by done.
    rewrite !elem_of_app. intros [H|[H|[H|H]]]; [done|exfalso..].
    + unfold redefinition in H.
      destruct (macros tu !! protocol_version) as [old|];
        [|by apply elem_of_nil in H].
      destruct (decide (old = IntLit 0)); [by apply elem_of_nil in H|].
      apply list_elem_of_singleton in H. destruct Hd; congruence.
    + by apply elem_of_nil in H.
    + destruct (default (IntLit 2) (macros tu !! device_n)) as [|w]; simpl in H.
      * apply list_elem_of_singleton in H. destruct Hd; subst; discriminate.
      * destruct ((w >? 0) && (w <? 256)); [by apply elem_of_nil in H|].
        apply list_elem_of_singleton in H. destruct Hd; subst; discriminate.
Qed.

Lemma protocol_version_assert_unreachable_witness :
  expand protocol_version
    (config_hpp (define protocol_version (IntLit 7) fresh)) = Some 0 ∧
  protocol_version_cond
    (config_hpp (define protocol_version (IntLit 7) fresh)) = Some true.
Proof.
  apply (proj1 (protocol_version_assert_unreachable
                  (define protocol_version (IntLit 7) fresh)
                  (StaticAssertFailed protocol_version_message)
                  (or_introl eq_refl))).
  vm_compute. reflexivity.
Defined.

(** Even a protocol version that the consuming build has defined to [7]
    does not reach the assertion: the header's own definition comes first. *)
Example protocol_version_assert_silent :
  diagnostics (config_hpp (define protocol_version (IntLit 7) fresh))
  = [MacroRedefined protocol_version].
Proof. vm_compute. reflexivity. Qed.

(** C10, as amended.  The header defines the protocol version without
    asking whether the symbol is defined already, so there is no way to
    override it.  When the consuming build has defined it to a value other
    than [0], the header's definition is reported as a macro redefinition,
    which is a warning and does not fail the build: the header leaves the
    protocol version at [0] and the compilation has the very outcome, object
    file or none, that it has without the earlier definition.  Every build
    that yields an object file has protocol version [0]. *)
Theorem protocol_version_fixed (tu : TU) (v : Z) :
  macros tu !! guard = None →
  macros tu !! protocol_version = None →
  v ≠ 0 →
  MacroRedefined protocol_version
    ∈ diagnostics (config_hpp (define protocol_version (IntLit v) tu)) ∧
  is_error (MacroRedefined protocol_version) = false ∧
  expand protocol_version
    (config_hpp (define protocol_version (IntLit v) tu)) = Some 0 ∧
  object_file (config_hpp (define protocol_version (IntLit v) tu))
  = object_file (config_hpp tu) ∧
  ∀ (tu' : TU) (m : gmap string replacement),
    macros tu' !! guard = None →
    object_file (config_hpp tu') = Some m →
    m !! protocol_version = Some (IntLit 0).
Proof.
  intros Hg Hpv Hv.
  destruct names_distinct as (Hgp & Hgb & Hgd & Hpb & Hpd & Hbd).
  set (tu1 := define protocol_version (IntLit v) tu).
  assert (Hg1 : macros tu1 !! guard = None).
  { unfold tu1. by rewrite lookup_define_ne. }
  assert (Hsame : ∀ n, n ≠ protocol_version →
                       macros tu1 !! n = macros tu !! n).
  { intros n Hn. unfold tu1. by rewrite lookup_define_ne. }
  assert (Hself : macros tu1 !! protocol_version = Some (IntLit v)).
  { unfold tu1. apply lookup_define_eq. }
  assert (Hd1 : diagnostics (config_hpp tu1)
                = diagnostics tu ++ [MacroRedefined protocol_version]
                  ++ device_n_verdict
                       (default (IntLit 2) (macros tu !! device_n))).
  { unfold config_hpp. rewrite diagnostics_config_hpp_at by done.
    unfold redefinition. rewrite Hself, Hsame by done.
    rewrite decide_False by congruence.
    unfold tu1. rewrite diagnostics_define. unfold redefinition.
    rewrite Hpv, app_nil_r. reflexivity. }
  assert (Hd0 : diagnostics (config_hpp tu)
                = diagnostics tu
                  ++ device_n_verdict
                       (default (IntLit 2) (macros tu !! device_n))).
  { unfold config_hpp. rewrite diagnostics_config_hpp_at by done.
    unfold redefinition. rewrite Hpv. reflexivity. }
  assert (Hm : macros (config_hpp tu1) = macros (config_hpp tu)).
  { apply map_eq. intros n.
    destruct (decide (n = guard)) as [->|?].
    { by rewrite !lookup_config_hpp_guard. }
    destruct (decide (n = protocol_version)) as [->|?].
    { by rewrite !lookup_config_hpp_protocol_version. }
    destruct (decide (n = board_id)) as [->|?].
    { rewrite !lookup_config_hpp_board_id by done. by rewrite Hsame. }
    destruct (decide (n = device_n)) as [->|?].
    { rewrite !lookup_config_hpp_device_n by done. by rewrite Hsame. }
    rewrite !lookup_config_hpp_other by done. by apply Hsame. }
  split; [|split; [reflexivity|split; [|split]]].
  - rewrite Hd1, !elem_of_app, list_elem_of_singleton. auto.
  - apply expand_lookup. by apply lookup_config_hpp_protocol_version.
  - unfold object_file. rewrite Hm, Hd1, Hd0.
    rewrite !forallb_app. simpl. reflexivity.
  - intros tu' m Hg' [_ ->]%object_file_Some.
    by apply lookup_config_hpp_protocol_version.
Qed.

Lemma protocol_version_fixed_witness :
  MacroRedefined protocol_version
    ∈ diagnostics (config_hpp (define protocol_version (IntLit 3) fresh)) ∧
  is_error (MacroRedefined protocol_version) = false ∧
  expand protocol_version
    (config_hpp (define protocol_version (IntLit 3) fresh)) = Some 0 ∧
  object_file (config_hpp (define protocol_version (IntLit 3) fresh))
  = object_file (config_hpp fresh) ∧
  ∀ (tu' : TU) (m : gmap string replacement),
    macros tu' !! guard = None →
    object_file (config_hpp tu') = Some m →
    m !! protocol_version = Some (IntLit 0).
Proof.
  apply (protocol_version_fixed fresh 3).
  - vm_compute. reflexivity.
  - vm_compute. reflexivity.
  - lia.
Defined.

(** C10, as it was stated, fails: a protocol version defined to [3]
    beforehand does not fail the build.  The compilation yields an object
    file, with protocol version [0]. *)
Lemma protocol_version_predefined_builds :
  object_file (config_hpp (define protocol_version (IntLit 3) fresh)) ≠ None ∧
  (compile [Define protocol_version (IntLit 3); IncludeConfig]
     ≫= λ m, m !! protocol_version) = Some (IntLit 0).
Proof.
  split.
  - assert (E : forallb (λ d, negb (is_error d))
                  (diagnostics
                     (config_hpp (define protocol_version (IntLit 3) fresh)))
                = true) by (vm_compute; reflexivity).
    unfold object_file. rewrite E. apply Some_ne_None.
  - vm_compute. reflexivity.
Qed.

Example protocol_version_predefined :
  (compile [Define protocol_version (IntLit 0); IncludeConfig]
     ≫= λ m, m !! protocol_version) = Some (IntLit 0) ∧
  (build [Define protocol_version (IntLit 0); IncludeConfig]
     ≫= λ m, m !! protocol_version) = Some (IntLit 0) ∧
  (build [IncludeConfig] ≫= λ m, m !! protocol_version) = Some (IntLit 0).
Proof. vm_compute. done. Qed.

(** ** Further properties of the header *)

Lemma elem_of_header_symbols (n : string) :
  n ∈ header_symbols
  ↔ n = guard ∨ n = protocol_version ∨ n = board_id ∨ n = device_n.
Proof.
  unfold header_symbols. rewrite !elem_of_union, !elem_of_singleton. tauto.
Qed.

(** X1.  The footprint of the header.  Processed for the first time, it
    defines its four symbols and nothing else: the defined names afterwards
    are the ones defined before plus these four, and every other name has
    the body, or the absence of a body, that it had. *)
Theorem header_footprint (tu : TU) :
  macros tu !! guard = None →
  dom (macros (config_hpp tu)) = header_symbols ∪ dom (macros tu) ∧
  ∀ n, n ∉ header_symbols → macros (config_hpp tu) !! n = macros tu !! n.
Proof.
  intros Hg.
  assert (Hother : ∀ n, n ∉ header_symbols →
                        macros (config_hpp tu) !! n = macros tu !! n).
  { intros n Hn. rewrite elem_of_header_symbols in Hn.
    apply lookup_config_hpp_other; [done|..]; intros ->; apply Hn; auto. }
  split; [|done].
  apply set_eq. intros n. rewrite elem_of_union, !elem_of_dom.
  destruct (decide (n ∈ header_symbols)) as [Hin|Hout].
  - split; [auto|]. intros _.
    apply elem_of_header_symbols in Hin as [-> | [-> | [-> | ->]]].
    + rewrite lookup_config_hpp_guard by done. eauto.
    + rewrite lookup_config_hpp_protocol_version by done. eauto.
    + rewrite lookup_config_hpp_board_id by done. eauto.
    + rewrite lookup_config_hpp_device_n by done. eauto.
  - rewrite Hother by done. split; [auto|].
    intros [Hc|Hc]; [contradiction | assumption].
Qed.

Lemma header_footprint_witness :
  dom (macros (config_hpp (define "OTHER" (IntLit 1) fresh)))
  = header_symbols ∪ dom (macros (define "OTHER" (IntLit 1) fresh)) ∧
  ∀ n, n ∉ header_symbols →
       macros (config_hpp (define "OTHER" (IntLit 1) fresh)) !! n
       = macros (define "OTHER" (IntLit 1) fresh) !! n.
Proof.
  apply (header_footprint (define "OTHER" (IntLit 1) fresh)).
  vm_compute. reflexivity.
Defined.

(** X2.  The protocol version is the only symbol whose body the header ever
    changes.  Any other macro that is defined when the header is reached,
    the board identifier and the device count included, legal or not, has
    the same body afterwards: nothing is clamped, coerced or replaced by a
    default. *)
Theorem header_keeps_bodies (tu : TU) (n : string) (r : replacement) :
  n ≠ protocol_version →
  macros tu !! n = Some r →
  macros (config_hpp tu) !! n = Some r.
Proof.
  intros Hn Hr. destruct (macros tu !! guard) as [g|] eqn:Hg.
  { unfold config_hpp. rewrite config_hpp_at_again by eauto. done. }
  destruct (decide (n = guard)) as [->|?]; [congruence|].
  destruct (decide (n = board_id)) as [->|?].
  { by rewrite lookup_config_hpp_board_id, Hr. }
  destruct (decide (n = device_n)) as [->|?].
  { by rewrite lookup_config_hpp_device_n, Hr. }
  by rewrite lookup_config_hpp_other.
Qed.

Lemma header_keeps_bodies_witness :
  macros (config_hpp (define device_n (IntLit 300) fresh)) !! device_n
  = Some (IntLit 300).
Proof.
  apply (header_keeps_bodies (define device_n (IntLit 300) fresh)).
  - discriminate.
  - vm_compute. reflexivity.
Defined.

Lemma artifact_is_Some (tu : TU) :
  is_Some (artifact tu) ↔ diagnostics tu = [].
Proof.
  unfold artifact. destruct (diagnostics tu).
  - split; eauto.
  - split; [intros [m [=]] | done].
Qed.

Lemma device_n_verdict_default_nil (o : option replacement) :
  device_n_verdict (default (IntLit 2) o) = []
  ↔ ∀ r, o = Some r → ∃ v, r = IntLit v ∧ 1 ≤ v ≤ 255.
Proof.
  destruct o as [[|v]|]; simpl default.
  - split; [done|]. intros H. destruct (H Empty eq_refl) as (v & [=] & _).
  - rewrite device_n_verdict_nil. split.
    + intros Hv r [= <-]. eauto.
    + intros H. destruct (H (IntLit v) eq_refl) as (w & [= <-] & Hw). done.
  - split; [intros _ r [=] | done].
Qed.

(** X3.  When the build succeeds.  A translation unit that reaches the
    header for the first time yields an artifact exactly when nothing was
    reported before, the protocol-version symbol is undefined or has the
    body [0], and the device-count symbol is undefined or has an integer
    body between [1] and [255]. *)
Theorem build_succeeds_iff (tu : TU) :
  macros tu !! guard = None →
  (is_Some (artifact (config_hpp tu)) ↔
   diagnostics tu = [] ∧
   (∀ r, macros tu !! protocol_version = Some r → r = IntLit 0) ∧
   (∀ r, macros tu !! device_n = Some r → ∃ v, r = IntLit v ∧ 1 ≤ v ≤ 255)).
Proof.
  intros Hg. rewrite artifact_is_Some. unfold config_hpp.
  rewrite diagnostics_config_hpp_at by done.
  rewrite !app_nil, redefinition_nil, device_n_verdict_default_nil.
  change (protocol_version_verdict (IntLit 0)) with (@nil diagnostic).
  tauto.
Qed.

Lemma build_succeeds_iff_witness :
  is_Some (artifact (config_hpp (define device_n (IntLit 255) fresh))) ↔
  diagnostics (define device_n (IntLit 255) fresh) = [] ∧
  (∀ r, macros (define device_n (IntLit 255) fresh) !! protocol_version
        = Some r → r = IntLit 0) ∧
  (∀ r, macros (define device_n (IntLit 255) fresh) !! device_n = Some r →
        ∃ v, r = IntLit v ∧ 1 ≤ v ≤ 255).
Proof.
  apply (build_succeeds_iff (define device_n (IntLit 255) fresh)).
  vm_compute. reflexivity.
Defined.

Lemma config_hpp_validated (tu : TU) :
  macros tu !! guard = None →
  diagnostics (config_hpp tu) = [] →
  macros (config_hpp tu) !! protocol_version = Some (IntLit 0) ∧
  ∃ v, macros (config_hpp tu) !! device_n = Some (IntLit v) ∧ 1 ≤ v ≤ 255.
Proof.
  intros Hg Hd. split; [by apply lookup_config_hpp_protocol_version|].
  unfold config_hpp in Hd. rewrite diagnostics_config_hpp_at in Hd by done.
  rewrite !app_nil in Hd. destruct Hd as (_ & _ & _ & Hd).
  rewrite lookup_config_hpp_device_n by done.
  destruct (default (IntLit 2) (macros tu !! device_n)) as [|v] eqn:E;
    [done|].
  exists v. split; [done|]. by apply device_n_verdict_nil.
Qed.

(** X4.  What an artifact holds.  Whenever the header, processed for the
    first time, leaves an artifact, that artifact has the include guard
    defined with an empty body, the protocol version [0], a board identifier
    that is defined, and a device count that is an integer between [1] and
    [255]. *)
Theorem artifact_constants (tu : TU) (m : gmap string replacement) :
  macros tu !! guard = None →
  artifact (config_hpp tu) = Some m →
  m !! guard = Some Empty ∧
  m !! protocol_version = Some (IntLit 0) ∧
  is_Some (m !! board_id) ∧
  ∃ v, m !! device_n = Some (IntLit v) ∧ 1 ≤ v ≤ 255.
Proof.
  intros Hg [Hd ->]%artifact_Some.
  destruct (config_hpp_validated tu Hg Hd) as [Hpv Hdev].
  split; [by apply lookup_config_hpp_guard|]. split; [done|].
  split; [|done]. rewrite lookup_config_hpp_board_id by done. eauto.
Qed.

Lemma artifact_constants_witness :
  macros (config_hpp (define device_n (IntLit 9) fresh)) !! guard
  = Some Empty ∧
  macros (config_hpp (define device_n (IntLit 9) fresh)) !! protocol_version
  = Some (IntLit 0) ∧
  is_Some (macros (config_hpp (define device_n (IntLit 9) fresh))
             !! board_id) ∧
  ∃ v, macros (config_hpp (define device_n (IntLit 9) fresh)) !! device_n
       = Some (IntLit v) ∧ 1 ≤ v ≤ 255.
Proof.
  apply (artifact_constants (define device_n (IntLit 9) fresh)).
  - vm_compute. reflexivity.
  - apply (proj2 (artifact_Some _ _)). split; [|reflexivity].
    vm_compute. reflexivity.
Defined.

(** X5.  A device count defined with an empty body.  The header keeps the
    empty body, the condition of the assertion on the device count is then
    no constant expression, this is reported under the message of that
    assertion, and no artifact is produced. *)
Theorem empty_device_count_rejected (tu : TU) :
  macros tu !! guard = None →
  macros tu !! device_n = Some Empty →
  macros (config_hpp tu) !! device_n = Some Empty ∧
  NotConstantExpression device_n_message ∈ diagnostics (config_hpp tu) ∧
  artifact (config_hpp tu) = None.
Proof.
  intros Hg Hdev.
  assert (Hin : NotConstantExpression device_n_message
                ∈ diagnostics (config_hpp tu)).
  { unfold config_hpp. rewrite diagnostics_config_hpp_at by done.
    rewrite Hdev. simpl. rewrite !elem_of_app, list_elem_of_singleton. auto. }
  split; [by rewrite lookup_config_hpp_device_n, Hdev|]. split; [done|].
  apply artifact_None. intros E. rewrite E in Hin. by apply elem_of_nil in Hin.
Qed.

Lemma empty_device_count_rejected_witness :
  macros (config_hpp (define device_n Empty fresh)) !! device_n = Some Empty ∧
  NotConstantExpression device_n_message
    ∈ diagnostics (config_hpp (define device_n Empty fresh)) ∧
  artifact (config_hpp (define device_n Empty fresh)) = None.
Proof.
  apply (empty_device_count_rejected (define device_n Empty fresh)).
  - vm_compute. reflexivity.
  - vm_compute. reflexivity.
Defined.

(** X6.  A board identifier with any body at all, the empty one included,
    passes through the header: the diagnostics are those of the build
    without a board identifier, and the body is exported as it is.  With an
    empty body the board identifier then stands for no integer, in a build
    that may well succeed. *)
Theorem board_id_body_unchecked (tu : TU) (r : replacement) :
  macros tu !! guard = None →
  macros tu !! board_id = None →
  diagnostics (config_hpp (define board_id r tu))
  = diagnostics (config_hpp tu) ∧
  macros (config_hpp (define board_id r tu)) !! board_id = Some r ∧
  (r = Empty → expand board_id (config_hpp (define board_id r tu)) = None).
Proof.
  intros Hg Hb. destruct names_distinct as (_ & Hgb & _ & Hpb & _ & Hbd).
  assert (Hg' : macros (define board_id r tu) !! guard = None).
  { by rewrite lookup_define_ne. }
  assert (Hl : macros (config_hpp (define board_id r tu)) !! board_id
               = Some r).
  { rewrite lookup_config_hpp_board_id by done.
    by rewrite lookup_define_eq. }
  split; [|split; [done|]].
  - unfold config_hpp. rewrite !diagnostics_config_hpp_at by done.
    rewrite diagnostics_define. unfold redefinition. rewrite Hb.
    rewrite !lookup_define_ne by done. by rewrite app_nil_r.
  - intros ->. unfold expand. by rewrite Hl.
Qed.

Lemma board_id_body_unchecked_witness :
  diagnostics (config_hpp (define board_id Empty fresh))
  = diagnostics (config_hpp fresh) ∧
  macros (config_hpp (define board_id Empty fresh)) !! board_id
  = Some Empty ∧
  (Empty = Empty →
   expand board_id (config_hpp (define board_id Empty fresh)) = None).
Proof.
  apply (board_id_body_unchecked fresh Empty); vm_compute; reflexivity.
Defined.

Example empty_board_id_builds :
  (build [Define board_id Empty; IncludeConfig] ≫= λ m, m !! board_id)
  = Some Empty.
Proof. vm_compute. reflexivity. Qed.

(** X7.  What the header reports and what it does not.  Whatever
    translation unit it is processed in, the header drops no earlier
    diagnostic, and a diagnostic found afterwards that was not there before
    is the redefinition of the protocol version or a report of the
    assertion on the device count: nothing is ever reported about the board
    identifier or by the assertion on the protocol version. *)
Theorem header_diagnostics_kinds (tu : TU) (d : diagnostic) :
  (d ∈ diagnostics tu → d ∈ diagnostics (config_hpp tu)) ∧
  (d ∈ diagnostics (config_hpp tu) →
   d ∈ diagnostics tu ∨
   d = MacroRedefined protocol_version ∨
   device_n_report d = true).
Proof.
  destruct (macros tu !! guard) as [g|] eqn:Hg.
  { unfold config_hpp. rewrite config_hpp_at_again by eauto. auto. }
  unfold config_hpp. rewrite diagnostics_config_hpp_at by done.
  change (protocol_version_verdict (IntLit 0)) with (@nil diagnostic).
  rewrite !elem_of_app. split; [auto|].
  intros [H|[H|[H|H]]].
  - auto.
  - apply elem_of_redefinition in H. auto.
  - by apply elem_of_nil in H.
  - right. right.
    apply elem_of_device_n_verdict in H as [-> | ->]; vm_compute; reflexivity.
Qed.

Lemma device_n_reports_define (n : string) (b : replacement) (tu : TU) :
  device_n_reports (define n b tu) = device_n_reports tu.
Proof.
  unfold device_n_reports. rewrite diagnostics_define, List.filter_app.
  by rewrite filter_redefinition, app_nil_r.
Qed.

Lemma device_n_reports_config_hpp (tu : TU) :
  macros tu !! guard = None →
  (device_n_reports (config_hpp tu) ≤ device_n_reports tu + 1)%nat.
Proof.
  intros Hg. unfold device_n_reports, config_hpp.
  rewrite diagnostics_config_hpp_at by done.
  rewrite !List.filter_app, !length_app, filter_redefinition.
  change (protocol_version_verdict (IntLit 0)) with (@nil diagnostic).
  pose proof (filter_device_n_verdict
                (default (IntLit 2) (macros tu !! device_n))).
  simpl. lia.
Qed.

Lemma device_n_reports_run (items : list item) (tu : TU) :
  (device_n_reports tu ≤ 1)%nat →
  (macros tu !! guard = None → device_n_reports tu = 0%nat) →
  (device_n_reports (run items tu) ≤ 1)%nat.
Proof.
  revert tu. induction items as [|i rest IH]; intros tu Hle Hzero; simpl.
  { done. }
  apply IH.
  - destruct i as [n b|]; cbn [exec].
    + by rewrite device_n_reports_define.
    + destruct (macros tu !! guard) as [g|] eqn:Hg.
      * unfold config_hpp. by rewrite config_hpp_at_again by eauto.
      * pose proof (device_n_reports_config_hpp tu Hg).
        rewrite Hzero in H by done. exact H.
  - intros Hnone. destruct (macros tu !! guard) as [g|] eqn:Hg.
    + destruct (exec_keeps_defined i guard tu) as [g' Hg']; [eauto|].
      congruence.
    + destruct i as [n b|]; cbn [exec] in *.
      * rewrite device_n_reports_define. by apply Hzero.
      * destruct (guard_defined_after 0 tu) as [g' Hg'].
        unfold config_hpp in Hnone. congruence.
Qed.

(** X8.  However often a translation unit includes the header, and
    whatever it defines before, between and after the inclusions, the
    assertion on the device count is reported at most once. *)
Theorem device_count_reported_once (items : list item) :
  (device_n_reports (run items fresh) ≤ 1)%nat.
Proof. apply device_n_reports_run; [cbv; lia | done]. Qed.

Example device_count_reported_once_example :
  device_n_reports
    (run [Define device_n (IntLit 0); IncludeConfig;
          Define board_id (IntLit 3); IncludeConfig; IncludeConfig] fresh)
  = 1%nat.
Proof. vm_compute. reflexivity. Qed.

(** X9.  The assertion of line 34, for whatever integer constant [pv]
    (one that fits [long long]) line 33 gives the protocol version: in a
    translation unit that reaches the header for the first time and holds no
    failure of that assertion yet, the failure is found among the
    diagnostics afterwards exactly when [pv] is outside [0, 3]. *)
Theorem protocol_version_assertion_iff (pv : Z) (tu : TU) :
  representable pv →
  macros tu !! guard = None →
  StaticAssertFailed protocol_version_message ∉ diagnostics tu →
  (StaticAssertFailed protocol_version_message
     ∈ diagnostics (config_hpp_at pv tu)
   ↔ ¬ (0 ≤ pv ≤ 3)).
Proof.
  intros _ Hg Hbefore. rewrite diagnostics_config_hpp_at by done.
  rewrite !elem_of_app. split.
  - intros [H|[H|[H|H]]].
    + done.
    + apply elem_of_redefinition in H. discriminate H.
    + intros Hpv. apply protocol_version_verdict_nil in Hpv.
      rewrite Hpv in H. by apply elem_of_nil in H.
    + apply elem_of_device_n_verdict in H as [H|H]; discriminate H.
  - intros Hpv. rewrite protocol_version_verdict_failed by done.
    rewrite list_elem_of_singleton. auto.
Qed.

Lemma protocol_version_assertion_iff_witness :
  StaticAssertFailed protocol_version_message
    ∈ diagnostics (config_hpp_at 3 fresh)
  ↔ ¬ (0 ≤ 3 ≤ 3).
Proof.
  apply (protocol_version_assertion_iff 3 fresh).
  - unfold representable. lia.
  - vm_compute. reflexivity.
  - simpl. apply not_elem_of_nil.
Defined.

Example protocol_version_in_range_builds :
  diagnostics (config_hpp_at 3 fresh) = [] ∧
  expand protocol_version (config_hpp_at 3 fresh) = Some 3.
Proof. vm_compute. done. Qed.

Lemma include_defines_guard (items : list item) (tu : TU) :
  existsb is_include items = true →
  is_Some (macros (run items tu) !! guard).
Proof.
  revert tu. induction items as [|i rest IH]; intros tu Hin; simpl in *.
  { discriminate. }
  destruct i as [n b|]; simpl in Hin.
  - by apply IH.
  - apply run_keeps_defined. cbn [exec]. apply guard_defined_after.
Qed.

Lemma validated_define (n : string) (b : replacement) (tu : TU) :
  redefinition n b tu = [] → validated tu → validated (define n b tu).
Proof.
  intros Hred (Hpv & v & Hdev & Hv). unfold redefinition in Hred.
  unfold define. destruct (macros tu !! n) as [old|] eqn:Hn.
  - destruct (decide (old = b)); [|discriminate Hred].
    split; [done|]. eauto.
  - assert (n ≠ protocol_version) by congruence.
    assert (n ≠ device_n) by congruence.
    split; simpl.
    + by rewrite lookup_insert_ne.
    + exists v. by rewrite lookup_insert_ne.
Qed.

Lemma validated_exec (i : item) (tu : TU) :
  defines guard i = false →
  (is_Some (macros tu !! guard) → diagnostics tu = [] → validated tu) →
  is_Some (macros (exec i tu) !! guard) →
  diagnostics (exec i tu) = [] →
  validated (exec i tu).
Proof.
  intros Hi Hinv Hg Hd. destruct i as [n b|]; cbn [exec] in *.
  - simpl in Hi. apply String.eqb_neq in Hi.
    rewrite lookup_define_ne in Hg by done.
    rewrite diagnostics_define in Hd. apply app_eq_nil in Hd as [Hd Hred].
    apply validated_define; [done|]. by apply Hinv.
  - destruct (macros tu !! guard) as [g|] eqn:Hguard.
    + unfold config_hpp in *. rewrite config_hpp_at_again in * by eauto.
      apply Hinv; [eauto | done].
    + by apply config_hpp_validated.
Qed.

Lemma validated_run (items : list item) (tu : TU) :
  forallb (λ i, negb (defines guard i)) items = true →
  (is_Some (macros tu !! guard) → diagnostics tu = [] → validated tu) →
  is_Some (macros (run items tu) !! guard) →
  diagnostics (run items tu) = [] →
  validated (run items tu).
Proof.
  revert tu. induction items as [|i rest IH]; intros tu Hitems Hinv; simpl.
  { done. }
  simpl in Hitems. apply andb_prop in Hitems as [Hi Hrest].
  apply negb_true_iff in Hi.
  apply IH; [done|]. by apply validated_exec.
Qed.

(** X10.  A translation unit made of macro definitions and inclusions of
    the header, which includes the header at least once, never defines the
    include guard by itself, and compiles without a diagnostic, exports the
    protocol version [0] and a device count that is an integer between [1]
    and [255]: no definition that comes after the header can have changed
    what the header validated. *)
Theorem validated_translation_unit (items : list item)
    (m : gmap string replacement) :
  forallb (λ i, negb (defines guard i)) items = true →
  existsb is_include items = true →
  build items = Some m →
  m !! protocol_version = Some (IntLit 0) ∧
  ∃ v, m !! device_n = Some (IntLit v) ∧ 1 ≤ v ≤ 255.
Proof.
  intros Hitems Hinc [Hd ->]%artifact_Some.
  apply (validated_run items fresh); [done| |by apply include_defines_guard|done].
  intros [g Hg]. simpl in Hg. rewrite lookup_empty in Hg. discriminate Hg.
Qed.

Lemma validated_translation_unit_witness :
  macros (run [Define device_n (IntLit 4); IncludeConfig;
               Define device_n (IntLit 4); IncludeConfig] fresh)
    !! protocol_version = Some (IntLit 0) ∧
  ∃ v, macros (run [Define device_n (IntLit 4); IncludeConfig;
                    Define device_n (IntLit 4); IncludeConfig] fresh)
         !! device_n = Some (IntLit v) ∧ 1 ≤ v ≤ 255.
Proof.
  apply (validated_translation_unit
           [Define device_n (IntLit 4); IncludeConfig;
            Define device_n (IntLit 4); IncludeConfig]).
  - vm_compute. reflexivity.
  - vm_compute. reflexivity.
  - apply (proj2 (artifact_Some _ _)). split; [|reflexivity].
    vm_compute. reflexivity.
Defined.

(** The include guard is the one symbol the consuming build must leave
    alone: defined by hand, it switches the header and its assertions
    off. *)
Example guard_defined_by_hand :
  (build [Define guard Empty; Define device_n (IntLit 0); IncludeConfig]
     ≫= λ m, m !! device_n) = Some (IntLit 0).
Proof. vm_compute. reflexivity. Qed.

(** X11.  Defining a parameter beforehand to the very constant the header
    would give it changes nothing: the header leaves the same translation
    unit, macro for macro and diagnostic for diagnostic, as without the
    definition.  This holds for the protocol version too, whose definition
    in the header is then an identical redefinition. *)
Theorem default_override_is_neutral (p : parameter) (tu : TU) :
  macros tu !! guard = None →
  macros tu !! symbol p = None →
  config_hpp (define (symbol p) (IntLit (builtin_default p)) tu)
  = config_hpp tu.
Proof.
  intros Hg Hp.
  destruct names_distinct as (Hgp & Hgb & Hgd & Hpb & Hpd & Hbd).
  set (tu' := define (symbol p) (IntLit (builtin_default p)) tu).
  assert (Hsym : symbol p ≠ guard) by (destruct p; cbn [symbol]; congruence).
  assert (Hg' : macros tu' !! guard = None).
  { unfold tu'. by rewrite lookup_define_ne. }
  assert (Hsame : ∀ n, n ≠ symbol p → macros tu' !! n = macros tu !! n).
  { intros n Hn. unfold tu'. by rewrite lookup_define_ne. }
  assert (Hself : macros tu' !! symbol p = Some (IntLit (builtin_default p))).
  { unfold tu'. apply lookup_define_eq. }
  apply TU_eq.
  - apply map_eq. intros n.
    destruct (decide (n = guard)) as [->|?].
    { by rewrite !lookup_config_hpp_guard. }
    destruct (decide (n = protocol_version)) as [->|?].
    { by rewrite !lookup_config_hpp_protocol_version. }
    destruct (decide (n = board_id)) as [->|?].
    { rewrite !lookup_config_hpp_board_id by done.
      destruct p; cbn [symbol builtin_default] in *.
      - by rewrite Hsame.
      - by rewrite Hself, Hp.
      - by rewrite Hsame. }
    destruct (decide (n = device_n)) as [->|?].
    { rewrite !lookup_config_hpp_device_n by done.
      destruct p; cbn [symbol builtin_default] in *.
      - by rewrite Hsame.
      - by rewrite Hsame.
      - by rewrite Hself, Hp. }
    rewrite !lookup_config_hpp_other by done.
    apply Hsame. destruct p; cbn [symbol]; done.
  - unfold config_hpp. rewrite !diagnostics_config_hpp_at by done.
    assert (Hd : diagnostics tu' = diagnostics tu).
    { unfold tu'. rewrite diagnostics_define. unfold redefinition.
      by rewrite Hp, app_nil_r. }
    rewrite Hd. f_equal. unfold redefinition.
    destruct p; cbn [symbol builtin_default] in *.
    + rewrite Hself, Hp. rewrite decide_True by done.
      by rewrite Hsame by done.
    + by rewrite !Hsame by done.
    + rewrite Hself, Hp. by rewrite Hsame by done.
Qed.

Lemma default_override_is_neutral_witness :
  config_hpp (define (symbol DeviceCount)
                (IntLit (builtin_default DeviceCount)) fresh)
  = config_hpp fresh.
Proof.
  apply (default_override_is_neutral DeviceCount fresh).
  - vm_compute. reflexivity.
  - vm_compute. reflexivity.
Defined.
